(** * WorldHappiness: a shallow embedding of the map / detail-panel logic

    The model follows [src/unnamed/part_001] (the version of [main.js] with
    the event timeline and the pre/post Covid chart); [src/src/main.js]
    computes the map fill, the name resolution, the factor maxima and the
    year lookup of the panel in the same way.

    Conventions of the embedding:
    - a JS string is a list of UTF-16 code units ([list Z]);
    - the parsed integers [+d.Year], [+d.Rank] and the slider value are [Z]
      (the NaN of an unparsable cell is not modelled);
    - the nullable reals produced by [parseComma] are [option Q];
    - [undefined] / [null] results are [None];
    - the DOM is modelled by the view-models the code writes into it: one
      fill per map feature and the contents of the detail panel. *)

From Stdlib Require Import ZArith QArith List Bool String Ascii Lia.
Import ListNotations.

Open Scope Z_scope.

(** ** JS strings *)

Definition jsstring := list Z.

(** ASCII literal -> JS string (used to write concrete inputs). *)
Fixpoint js (s : string) : jsstring :=
  match s with
  | EmptyString => []
  | String c r => Z.of_nat (nat_of_ascii c) :: js r
  end.

Fixpoint jss_eqb (a b : jsstring) : bool :=
  match a, b with
  | [], [] => true
  | x :: a', y :: b' => (x =? y) && jss_eqb a' b'
  | _, _ => false
  end.

Lemma jss_eqb_eq : forall a b, jss_eqb a b = true <-> a = b.
Proof.
  induction a as [|x a IH]; destruct b as [|y b]; simpl; split; intro H;
    try congruence; try reflexivity.
  - apply andb_prop in H as [H1 H2]. apply Z.eqb_eq in H1.
    apply IH in H2. subst; reflexivity.
  - injection H as -> ->. apply andb_true_intro; split.
    + apply Z.eqb_refl.
    + apply IH; reflexivity.
Qed.

Definition opt_jss_eqb (a b : option jsstring) : bool :=
  match a, b with
  | Some x, Some y => jss_eqb x y
  | None, None => true
  | _, _ => false
  end.

(** JS truthiness of a string-or-null: [null] and [""] are falsy. *)
Definition truthy_str (o : option jsstring) : bool :=
  match o with
  | Some (_ :: _) => true
  | _ => false
  end.

(** [a || b] on string-or-null values. *)
Definition js_or (a b : option jsstring) : option jsstring :=
  if truthy_str a then a else b.

(** [String.prototype.trim]: strips WhiteSpace and LineTerminator code
    units (ECMA-262 12.2 and 12.3) at both ends. *)
Definition is_js_space (c : Z) : bool :=
  existsb (Z.eqb c)
    [9; 10; 11; 12; 13; 32; 160; 5760; 8192; 8193; 8194; 8195; 8196;
     8197; 8198; 8199; 8200; 8201; 8202; 8232; 8233; 8239; 8287; 12288;
     65279].

Fixpoint trim_start (s : jsstring) : jsstring :=
  match s with
  | c :: r => if is_js_space c then trim_start r else s
  | [] => []
  end.

Definition trim (s : jsstring) : jsstring :=
  rev (trim_start (rev (trim_start s))).

(** [name.replace(/\./g,'').replace(/[’']/g,"'")] *)
Definition strip_periods (s : jsstring) : jsstring :=
  filter (fun c => negb (c =? 46)) s.

Definition canon_apostrophes (s : jsstring) : jsstring :=
  map (fun c => if (c =? 8217) || (c =? 39) then 39 else c) s.

Definition normalize_name (s : jsstring) : jsstring :=
  canon_apostrophes (strip_periods s).

(** The static dictionary [countryToISO3] (from [isoMap.js]): a plain JS
    object, read with [countryToISO3[name]]. *)
Definition dict := list (jsstring * jsstring).

Fixpoint dict_get (d : dict) (k : jsstring) : option jsstring :=
  match d with
  | [] => None
  | (k', v) :: d' => if jss_eqb k k' then Some v else dict_get d' k
  end.

(** ** Rows of the CSV and features of the GeoJSON *)

Inductive factor_key :=
  | Gdp | Social | Healthy | Freedom | Generosity | Corruption.

(** [factorKeys], in source order. *)
Definition factorKeys : list factor_key :=
  [Gdp; Social; Healthy; Freedom; Generosity; Corruption].

(** A parsed CSV row, after [d.iso3] has been attached by [loadData]. *)
Record row := mkRow {
  country : option jsstring;   (* trimmed name, or null *)
  iso3 : option jsstring;
  year : Z;
  rank : Z;
  ladder : option Q;
  gdp : option Q;
  social : option Q;
  healthy : option Q;
  freedom : option Q;
  generosity : option Q;
  corruption : option Q
}.

(** [row[f.key]] *)
Definition get_factor (k : factor_key) (r : row) : option Q :=
  match k with
  | Gdp => gdp r
  | Social => social r
  | Healthy => healthy r
  | Freedom => freedom r
  | Generosity => generosity r
  | Corruption => corruption r
  end.

(** A GeoJSON feature: its raw [properties.name] and the [iso_a3] written
    by [loadData]. *)
Record feature := mkFeature {
  fname : option jsstring;
  iso_a3 : option jsstring
}.

(** ** [loadData]: name resolution, filtering, grouping *)

(** The CSV row mapper: [countryName ? countryName.trim() : null]. *)
Definition parse_country (raw : option jsstring) : option jsstring :=
  match raw with
  | Some s => if truthy_str (Some s) then Some (trim s) else None
  | None => None
  end.

(** GeoJSON features (part_001, lines 62-66):
    [name ? (countryToISO3[name] || countryToISO3[normalized]) : null],
    then [iso || null]. *)
Definition resolve_feature_name (d : dict) (raw : option jsstring)
  : option jsstring :=
  let name := parse_country raw in
  let iso :=
    match name with
    | Some n =>
        if truthy_str (Some n)
        then js_or (dict_get d n) (dict_get d (normalize_name n))
        else None
    | None => None
    end in
  js_or iso None.

(** CSV rows (part_001, line 69):
    [d.country ? countryToISO3[d.country] || null : null]. *)
Definition resolve_row_name (d : dict) (c : option jsstring)
  : option jsstring :=
  match c with
  | Some n => if truthy_str (Some n) then js_or (dict_get d n) None else None
  | None => None
  end.

Definition tag_feature (d : dict) (f : feature) : feature :=
  mkFeature (fname f) (resolve_feature_name d (fname f)).

(** A raw CSV record carries the untrimmed name in [country]. *)
Definition tag_row (d : dict) (r : row) : row :=
  let c := parse_country (country r) in
  mkRow c (resolve_row_name d c) (year r) (rank r) (ladder r)
    (gdp r) (social r) (healthy r) (freedom r) (generosity r) (corruption r).

Fixpoint mem_code (k : option jsstring) (s : list (option jsstring)) : bool :=
  match s with
  | [] => false
  | k' :: s' => opt_jss_eqb k k' || mem_code k s'
  end.

(** [new Set(world.features.map(f => f.properties.iso_a3).filter(Boolean))] *)
Definition geo_iso_set (fs : list feature) : list (option jsstring) :=
  filter truthy_str (map iso_a3 fs).

(** [happiness.filter(d => d.iso3 && geoISOSet.has(d.iso3))] *)
Definition filter_rows (geo : list (option jsstring)) (rs : list row)
  : list row :=
  filter (fun r => truthy_str (iso3 r) && mem_code (iso3 r) geo) rs.

(** [d3.group(filtered, d => d.iso3)]: groups in order of first key
    occurrence, rows of a group in input order. *)
Definition group := list (option jsstring * list row).

Fixpoint group_add (k : option jsstring) (r : row) (g : group) : group :=
  match g with
  | [] => [(k, [r])]
  | (k', rs) :: g' =>
      if opt_jss_eqb k k' then (k', rs ++ [r]) :: g'
      else (k', rs) :: group_add k r g'
  end.

Definition group_by (rs : list row) : group :=
  fold_left (fun g r => group_add (iso3 r) r g) rs [].

(** [byISO.get(k)] ([undefined] when [byISO.has(k)] is false). *)
Fixpoint group_get (k : option jsstring) (g : group) : option (list row) :=
  match g with
  | [] => None
  | (k', rs) :: g' => if opt_jss_eqb k k' then Some rs else group_get k g'
  end.

(** [d3.max(values)]: ignores null, keeps the first strictly larger value. *)
Definition d3_max (vs : list (option Q)) : option Q :=
  fold_left
    (fun acc v =>
       match v with
       | None => acc
       | Some x =>
           match acc with
           | None => Some x
           | Some m => if Qlt_le_dec m x then Some x else Some m
           end
       end) vs None.

(** [x ?? 0] *)
Definition or_zero (v : option Q) : Q :=
  match v with Some x => x | None => 0%Q end.

(** [d3.max(filtered, d => d[f.key] ?? 0) || 1]: [undefined] and [0]
    are falsy. *)
Definition factor_max (rs : list row) (k : factor_key) : Q :=
  match d3_max (map (fun r => Some (or_zero (get_factor k r))) rs) with
  | None => 1%Q
  | Some m => if Qeq_bool m 0 then 1%Q else m
  end.

(** The event log [events.json]: country code -> list of (year, texts), in
    [Object.entries] order; the year keys are the numbers [+y]. *)
Definition event_log := list (jsstring * list (Z * list jsstring)).

(** [eventsData[iso3]]: an object (possibly empty) or [undefined]. *)
Fixpoint events_get (ev : event_log) (k : option jsstring)
  : option (list (Z * list jsstring)) :=
  match ev, k with
  | [], _ => None
  | _, None => None
  | (k', e) :: ev', Some c =>
      if jss_eqb c k' then Some e else events_get ev' k
  end.

(** Everything [initViz] keeps after the load. *)
Record env := mkEnv {
  worldData : list feature;
  happinessData : list row;
  byISO : group;
  factorMaxByKey : factor_key -> Q;
  eventsData : event_log
}.

Definition loadData (d : dict) (csv : list row) (world : list feature)
  (events : event_log) : env :=
  let world' := map (tag_feature d) world in
  let happiness := map (tag_row d) csv in
  let filtered := filter_rows (geo_iso_set world') happiness in
  mkEnv world' filtered (group_by filtered) (factor_max filtered) events.

(** ** [showCountryPanel]: the sorted series and the year lookup *)

(** [rows.slice().sort((a,b) => d3.ascending(a.year,b.year))]:
    [Array.prototype.sort] is stable; a stable insertion sort gives the
    same array. *)
Fixpoint insert_asc (r : row) (s : list row) : list row :=
  match s with
  | [] => [r]
  | x :: s' => if year r <=? year x then r :: s else x :: insert_asc r s'
  end.

Fixpoint sort_by_year (l : list row) : list row :=
  match l with
  | [] => []
  | r :: l' => insert_asc r (sort_by_year l')
  end.

(** [rows[rows.length - 1]] *)
Fixpoint last_opt {A} (l : list A) : option A :=
  match l with
  | [] => None
  | [x] => Some x
  | _ :: l' => last_opt l'
  end.

(** Line 119:
    [rows.find(r => r.year === year)
       || rows.slice().reverse().find(r => r.year <= year)
       || rows[rows.length - 1]]
    (rows are objects, hence truthy). *)
Definition pick_row (rows : list row) (y : Z) : option row :=
  match find (fun r => year r =? y) rows with
  | Some r => Some r
  | None =>
      match find (fun r => year r <=? y) (rev rows) with
      | Some r => Some r
      | None => last_opt rows
      end
  end.

(** TemporalIndex.lookup: the group of a country, sorted, then [pick_row]. *)
Definition lookup_row (g : list row) (y : Z) : option row :=
  pick_row (sort_by_year g) y.

(** ** [drawMap] *)

Inductive fill :=
  | RankColor (rk : Z)   (* colorScale(rank), domain [100, 1] *)
  | Neutral.             (* "#1e293b" *)

(** [new Map(happinessData.filter(d => d.year === year)
                           .map(d => [d.iso3, d.rank]))] *)
Definition year_data (rs : list row) (y : Z) : list (option jsstring * Z) :=
  map (fun r => (iso3 r, rank r)) (filter (fun r => year r =? y) rs).

(** [Map.prototype.get]: a later entry with the same key overwrote the
    earlier ones. *)
Definition map_get (k : option jsstring) (m : list (option jsstring * Z))
  : option Z :=
  fold_left (fun acc p => if opt_jss_eqb k (fst p) then Some (snd p) else acc)
    m None.

(** [rank ? colorScale(rank) : "#1e293b"] *)
Definition feature_fill (yd : list (option jsstring * Z)) (f : feature)
  : fill :=
  match map_get (iso_a3 f) yd with
  | Some rk => if rk =? 0 then Neutral else RankColor rk
  | None => Neutral
  end.

(** The fill of every feature after [drawMap(year)] (the keyed join keeps
    one path per feature). *)
Definition drawMap (e : env) (y : Z) : list fill :=
  map (feature_fill (year_data (happinessData e) y)) (worldData e).

(** ** [drawCovidComparison] *)

Inductive period := PreCovid | PostCovid.

Inductive covid_view :=
  | CovidNoData                         (* "No data available ..." *)
  | CovidBars (bars : list (period * Q)).

(** [d3.mean(values)]: ignores null; [undefined] when nothing counted. *)
Definition d3_mean (vs : list (option Q)) : option Q :=
  let '(sum, count) :=
    fold_left
      (fun acc v =>
         match v with
         | None => acc
         | Some x => (fst acc + x, (snd acc + 1)%nat)
         end%Q) vs (0%Q, 0%nat) in
  match count with
  | O => None
  | S _ => Some (sum / inject_Z (Z.of_nat count))%Q
  end.

(** [xs.length ? d3.mean(xs, r => r.ladder) : null] *)
Definition period_avg (xs : list row) : option Q :=
  match xs with
  | [] => None
  | _ => d3_mean (map ladder xs)
  end.

Definition pre_years (rows : list row) : list row :=
  filter (fun r => (2015 <=? year r) && (year r <=? 2019)) rows.

Definition post_years (rows : list row) : list row :=
  filter (fun r => 2020 <=? year r) rows.

Definition drawCovidComparison (rows : list row) : covid_view :=
  let preAvg := period_avg (pre_years rows) in
  let postAvg := period_avg (post_years rows) in
  match preAvg, postAvg with
  | None, None => CovidNoData
  | _, _ =>
      CovidBars
        (flat_map
           (fun p => match snd p with Some v => [(fst p, v)] | None => [] end)
           [(PreCovid, preAvg); (PostCovid, postAvg)])
  end.

(** ** Historical events (lines 156-187) *)

Record event_entry := mkEntry {
  ev_year : Z;
  ev_active : bool;
  ev_texts : list (jsstring * bool)   (* text, headline flag *)
}.

Inductive history_view :=
  | NoEvents                          (* "Keine Ereignisse hinterlegt." *)
  | EventList (es : list event_entry).

(** [.sort((a,b) => d3.descending(a.y, b.y))], stable. *)
Fixpoint insert_desc (e : Z * list jsstring) (s : list (Z * list jsstring))
  : list (Z * list jsstring) :=
  match s with
  | [] => [e]
  | x :: s' => if fst x <=? fst e then e :: s else x :: insert_desc e s'
  end.

Fixpoint sort_desc (l : list (Z * list jsstring)) : list (Z * list jsstring) :=
  match l with
  | [] => []
  | e :: l' => insert_desc e (sort_desc l')
  end.

(** [ev.forEach((txt, i) => ... isActive && i === 0 ? " headline" : "")] *)
Fixpoint flag_texts (act : bool) (i : nat) (ts : list jsstring)
  : list (jsstring * bool) :=
  match ts with
  | [] => []
  | t :: ts' => (t, act && Nat.eqb i 0) :: flag_texts act (S i) ts'
  end.

Definition render_entry (activeYear : Z) (e : Z * list jsstring)
  : event_entry :=
  let act := fst e =? activeYear in
  mkEntry (fst e) act (flag_texts act 0 (snd e)).

Definition history (ev : event_log) (iso : option jsstring) (activeYear : Z)
  : history_view :=
  match events_get ev iso with
  | Some es =>
      let entries := sort_desc es in
      let filtered := filter (fun e => fst e <=? activeYear) entries in
      let lst := match filtered with [] => entries | _ => filtered end in
      EventList (map (render_entry activeYear) lst)
  | None => NoEvents
  end.

(** ** The detail panel and the two triggers *)

(** Outcome of a JS event handler: it completes or throws a TypeError. *)
Inductive js_result (A : Type) :=
  | JsOk (a : A)
  | JsTypeError.
Arguments JsOk {A} a.
Arguments JsTypeError {A}.

(** What [showCountryPanel] writes into the panel. *)
Record panel := mkPanel {
  p_title : option jsstring;              (* titleEl *)
  p_ladder : option Q;                    (* ladderTodayEl; "" is None *)
  p_series : list row;                    (* sparkline *)
  p_row : row;                            (* sparkline marker *)
  p_factors : list (factor_key * Q * Q);  (* key, value, max *)
  p_covid : covid_view;                   (* #covidChart *)
  p_history : history_view                (* #history *)
}.

(** [row && row.ladder ? d3.format(".2f")(row.ladder) : ""] *)
Definition ladder_today (r : row) : option Q :=
  match ladder r with
  | Some x => if Qeq_bool x 0 then None else Some x
  | None => None
  end.

(** [{ key, label, value: row[f.key] ?? 0, max: factorMaxByKey[f.key] ?? 1 }] *)
Definition factor_values (e : env) (r : row) : list (factor_key * Q * Q) :=
  map (fun k => (k, or_zero (get_factor k r), factorMaxByKey e k)) factorKeys.

(** [showCountryPanel(iso3, displayName)], the slider at [y]; [old] is the
    panel currently shown ([None]: nothing shown yet). *)
Definition showCountryPanel (e : env) (iso : option jsstring)
  (displayName : option jsstring) (y : Z) (old : option panel)
  : js_result (option panel) :=
  if negb (truthy_str iso) then JsOk old else
  match group_get iso (byISO e) with
  | None => JsOk old                         (* !byISO.has(iso3): return *)
  | Some g =>
      let rows := sort_by_year g in
      match pick_row rows y with
      | None => JsTypeError                    (* row[f.key] on undefined *)
      | Some r =>
          JsOk (Some (mkPanel displayName (ladder_today r) rows r
                        (factor_values e r) (drawCovidComparison rows)
                        (history (eventsData e) iso y)))
      end
  end.

(** ViewState: the slider value, [selectedISO], and what is on screen. *)
Record state := mkState {
  slider : Z;
  selectedISO : option jsstring;
  map_fills : list fill;
  panel_view : option panel
}.

Inductive trigger :=
  | YearChange (y : Z)       (* slider "input" *)
  | Click (f : feature).     (* "click" on a map path *)

(** [worldData.features.find(f => f.properties.iso_a3 === selectedISO)] *)
Definition find_feature (fs : list feature) (k : option jsstring)
  : option feature :=
  find (fun f => opt_jss_eqb (iso_a3 f) k) fs.

Definition step (e : env) (st : state) (t : trigger) : js_result state :=
  match t with
  | YearChange y =>
      let fills := drawMap e y in
      if truthy_str (selectedISO st) then
        let disp :=
          match find_feature (worldData e) (selectedISO st) with
          | Some f => fname f
          | None => selectedISO st
          end in
        match showCountryPanel e (selectedISO st) disp y (panel_view st) with
        | JsOk p => JsOk (mkState y (selectedISO st) fills p)
        | JsTypeError => JsTypeError
        end
      else JsOk (mkState y (selectedISO st) fills (panel_view st))
  | Click f =>
      match showCountryPanel e (iso_a3 f) (fname f) (slider st)
              (panel_view st) with
      | JsOk p => JsOk (mkState (slider st) (iso_a3 f) (map_fills st) p)
      | JsTypeError => JsTypeError
      end
  end.

(** The state right after the first render: [drawMap(+slider.value)]. *)
Definition init_state (e : env) (y0 : Z) : state :=
  mkState y0 None (drawMap e y0) None.

(** ** Concrete data used by the examples *)

Definition obs (c : string) (y rk : Z) (l : option Q) : row :=
  mkRow (Some (js c)) (Some (js c)) y rk l None None None None None None.

Definition r2015 := obs "DEU" 2015 7 (Some (7 # 1)).
Definition r2017 := obs "DEU" 2017 6 (Some (7 # 1)).
Definition r2020 := obs "DEU" 2020 5 (Some (8 # 1)).
Definition deu_series := [r2015; r2017; r2020].

(** * Properties *)

From Stdlib Require Import Sorting.Sorted Permutation.

(** ** Equality tests *)

Lemma opt_jss_eqb_eq : forall a b, opt_jss_eqb a b = true <-> a = b.
Proof.
  intros [a|] [b|]; simpl; split; intro H; try congruence.
  - apply jss_eqb_eq in H; subst; reflexivity.
  - injection H as ->; apply jss_eqb_eq; reflexivity.
Qed.

Lemma opt_jss_eqb_refl : forall a, opt_jss_eqb a a = true.
Proof. intro a; apply opt_jss_eqb_eq; reflexivity. Qed.

(** ** The sorted series *)

Definition year_le (a b : row) : Prop := year a <= year b.

Lemma in_insert_asc : forall r s z, In z (insert_asc r s) <-> r = z \/ In z s.
Proof.
  intros r s z; induction s as [|x s IH]; simpl.
  - tauto.
  - destruct (year r <=? year x); simpl; [tauto|]. rewrite IH; tauto.
Qed.

Lemma in_sort_by_year : forall l z, In z (sort_by_year l) <-> In z l.
Proof.
  induction l as [|a l IH]; intro z; simpl; [tauto|].
  rewrite in_insert_asc, IH; tauto.
Qed.

Lemma insert_asc_sorted : forall r s,
  StronglySorted year_le s -> StronglySorted year_le (insert_asc r s).
Proof.
  intros r s; induction s as [|x s IH]; intro Hs; simpl.
  - repeat constructor.
  - apply StronglySorted_inv in Hs as [Hs Hx].
    destruct (year r <=? year x) eqn:E.
    + apply Z.leb_le in E. constructor; [constructor; assumption|].
      constructor; [exact E|].
      rewrite Forall_forall in *; intros z Hz; unfold year_le in *.
      specialize (Hx z Hz); lia.
    + apply Z.leb_gt in E. constructor; [apply IH; assumption|].
      rewrite Forall_forall in *; intros z Hz.
      apply in_insert_asc in Hz as [<-|Hz]; unfold year_le; [lia|].
      apply Hx; assumption.
Qed.

Lemma sort_by_year_sorted : forall l, StronglySorted year_le (sort_by_year l).
Proof.
  induction l; simpl; [constructor|]. apply insert_asc_sorted; assumption.
Qed.

(** Stability: the rows of one year keep their relative order. *)
Lemma filter_year_insert_asc : forall y a s,
  filter (fun r => year r =? y) (insert_asc a s)
  = if year a =? y then a :: filter (fun r => year r =? y) s
    else filter (fun r => year r =? y) s.
Proof.
  intros y a s; induction s as [|x s IH]; simpl.
  - destruct (year a =? y); reflexivity.
  - destruct (year a <=? year x) eqn:E; simpl; [reflexivity|].
    rewrite IH. apply Z.leb_gt in E.
    destruct (year a =? y) eqn:Ea, (year x =? y) eqn:Ex; try reflexivity.
    apply Z.eqb_eq in Ea; apply Z.eqb_eq in Ex; lia.
Qed.

Lemma filter_year_sort : forall y l,
  filter (fun r => year r =? y) (sort_by_year l)
  = filter (fun r => year r =? y) l.
Proof.
  intros y l; induction l as [|a l IH]; simpl; [reflexivity|].
  rewrite filter_year_insert_asc, IH. destruct (year a =? y); reflexivity.
Qed.

Lemma find_hd_filter : forall {A} (p : A -> bool) l,
  find p l = hd_error (filter p l).
Proof.
  intros A p l; induction l as [|a l IH]; simpl; [reflexivity|].
  destruct (p a); [reflexivity | exact IH].
Qed.

Lemma find_app_split : forall {A} (p : A -> bool) l1 l2,
  find p (l1 ++ l2) = match find p l1 with Some x => Some x | None => find p l2 end.
Proof.
  intros A p l1 l2; induction l1 as [|a l1 IH]; simpl; [reflexivity|].
  destruct (p a); [reflexivity | exact IH].
Qed.

Lemma find_rev_sorted_max : forall p l r,
  StronglySorted year_le l -> find p (rev l) = Some r ->
  In r l /\ p r = true /\ forall x, In x l -> p x = true -> year x <= year r.
Proof.
  intros p l; induction l as [|a l IH]; intros r Hs Hf; simpl in Hf.
  - discriminate.
  - apply StronglySorted_inv in Hs as [Hs Ha]. rewrite Forall_forall in Ha.
    rewrite find_app_split in Hf.
    destruct (find p (rev l)) as [r'|] eqn:E.
    + injection Hf as <-. destruct (IH r' Hs eq_refl) as [H1 [H2 H3]].
      split; [right; exact H1|]. split; [exact H2|].
      intros x [<-|Hx] Hp; [apply Ha; exact H1 | apply H3; assumption].
    + simpl in Hf. destruct (p a) eqn:Pa; [|discriminate].
      injection Hf as <-. split; [left; reflexivity|]. split; [exact Pa|].
      intros x [<-|Hx] Hp; [lia|].
      pose proof (find_none _ _ E x) as Hn. rewrite <- in_rev in Hn.
      specialize (Hn Hx). congruence.
Qed.

Lemma last_opt_sorted_max : forall l r,
  StronglySorted year_le l -> last_opt l = Some r ->
  In r l /\ forall x, In x l -> year x <= year r.
Proof.
  induction l as [|a l IH]; intros r Hs Hl; [discriminate|].
  apply StronglySorted_inv in Hs as [Hs Ha]. rewrite Forall_forall in Ha.
  destruct l as [|b l].
  - injection Hl as <-. split; [left; reflexivity|].
    intros x [<-|[]]; lia.
  - destruct (IH r Hs Hl) as [H1 H2]. split; [right; exact H1|].
    intros x [<-|Hx]; [apply Ha; exact H1 | apply H2; exact Hx].
Qed.

Lemma last_opt_nonempty : forall {A} (l : list A), l <> [] -> exists x, last_opt l = Some x.
Proof.
  intros A l; induction l as [|a l IH]; intro H; [congruence|].
  destruct l as [|b l]; [exists a; reflexivity|].
  apply IH; discriminate.
Qed.

Lemma sort_by_year_nil : forall l, sort_by_year l = [] <-> l = [].
Proof.
  intros [|a l]; simpl; split; intro H; try reflexivity; try discriminate.
  destruct (sort_by_year l); simpl in H; [|destruct (year a <=? year r)];
    discriminate.
Qed.

(** Whenever the series is non-empty the lookup yields a row. *)
Lemma lookup_row_some : forall g y, g <> [] -> exists r, lookup_row g y = Some r.
Proof.
  intros g y Hg. unfold lookup_row, pick_row.
  destruct (find _ (sort_by_year g)) as [r|]; [exists r; reflexivity|].
  destruct (find _ (rev (sort_by_year g))) as [r|]; [exists r; reflexivity|].
  apply last_opt_nonempty. rewrite sort_by_year_nil. exact Hg.
Qed.

(** ** Groups of [d3.group] are never empty *)

Definition groups_nonempty (g : group) : Prop :=
  Forall (fun p => snd p <> []) g.

Lemma group_add_nonempty : forall k r g,
  groups_nonempty g -> groups_nonempty (group_add k r g).
Proof.
  intros k r g; induction g as [|[k' rs] g IH]; intro H; simpl.
  - repeat constructor; discriminate.
  - apply Forall_cons_iff in H as [H1 H2].
    destruct (opt_jss_eqb k k'); constructor; simpl.
    + intro Hc; apply app_eq_nil in Hc as [_ Hc]; discriminate.
    + exact H2.
    + exact H1.
    + apply IH, H2.
Qed.

Lemma group_by_nonempty : forall rs, groups_nonempty (group_by rs).
Proof.
  intro rs. unfold group_by.
  assert (Hgen : forall g, groups_nonempty g ->
            groups_nonempty (fold_left (fun g r => group_add (iso3 r) r g) rs g)).
  { induction rs as [|r rs IH]; intros g Hg; simpl; [exact Hg|].
    apply IH, group_add_nonempty, Hg. }
  apply Hgen; constructor.
Qed.

Lemma group_get_nonempty : forall k g rs,
  groups_nonempty g -> group_get k g = Some rs -> rs <> [].
Proof.
  intros k g; induction g as [|[k' rs'] g IH]; intros rs Hg Hget; simpl in Hget.
  - discriminate.
  - apply Forall_cons_iff in Hg as [H1 H2].
    destruct (opt_jss_eqb k k'); [injection Hget as <-; exact H1|].
    apply IH; assumption.
Qed.

(** [showCountryPanel] never reaches [row[f.key]] with an undefined row on
    the data built by [loadData]. *)
Lemma showCountryPanel_total : forall e iso disp y old,
  groups_nonempty (byISO e) ->
  exists p, showCountryPanel e iso disp y old = JsOk p.
Proof.
  intros e iso disp y old He. unfold showCountryPanel.
  destruct (negb (truthy_str iso)); [eexists; reflexivity|].
  destruct (group_get iso (byISO e)) as [g|] eqn:G; [|eexists; reflexivity].
  pose proof (group_get_nonempty _ _ _ He G) as Hg.
  destruct (lookup_row_some g y Hg) as [r Hr]. unfold lookup_row in Hr.
  rewrite Hr. eexists; reflexivity.
Qed.

Lemma loadData_groups : forall d csv world ev,
  groups_nonempty (byISO (loadData d csv world ev)).
Proof. intros; apply group_by_nonempty. Qed.

(** ** C2: the lookup policy *)

(** C2. For any country's group [g] and query year [y], [lookup_row g y]
    (line 119 on the ascending series) returns: the first row of year [y]
    when one exists (first in the series, which by stability is also the
    first in the group); otherwise a row with the largest year below [y];
    otherwise (all years after [y]) a row with the largest year of the
    series; and it returns nothing exactly when the group is empty. *)
Theorem lookup_policy : forall (g : list row) (y : Z),
  ((exists r, In r g /\ year r = y) ->
     lookup_row g y = find (fun r => year r =? y) (sort_by_year g)
     /\ lookup_row g y = find (fun r => year r =? y) g)
  /\ ((forall r, In r g -> year r <> y) ->
      (exists r, In r g /\ year r < y) ->
      exists r, lookup_row g y = Some r /\ In r g /\ year r < y
        /\ forall r', In r' g -> year r' < y -> year r' <= year r)
  /\ ((forall r, In r g -> y < year r) -> g <> [] ->
      exists r, lookup_row g y = Some r /\ In r g
        /\ forall r', In r' g -> year r' <= year r)
  /\ (lookup_row g y = None <-> g = []).
Proof.
  intros g y. pose proof (sort_by_year_sorted g) as Hs.
  assert (Hfind : find (fun r => year r =? y) (sort_by_year g)
                  = find (fun r => year r =? y) g).
  { rewrite !find_hd_filter, filter_year_sort; reflexivity. }
  split; [|split; [|split]].
  - intros [r [Hr Hy]]. unfold lookup_row, pick_row.
    destruct (find (fun r => year r =? y) (sort_by_year g)) as [x|] eqn:E.
    + split; [reflexivity | exact Hfind].
    + exfalso. apply (in_sort_by_year g r) in Hr.
      pose proof (find_none _ _ E r Hr) as Hn. apply Z.eqb_neq in Hn. lia.
  - intros Hne [r0 [Hr0 Hy0]]. unfold lookup_row, pick_row.
    destruct (find (fun r => year r =? y) (sort_by_year g)) as [x|] eqn:E.
    { apply find_some in E as [Ex Ey]. rewrite in_sort_by_year in Ex.
      apply Z.eqb_eq in Ey. exfalso; exact (Hne x Ex Ey). }
    destruct (find (fun r => year r <=? y) (rev (sort_by_year g))) as [x|] eqn:F.
    + destruct (find_rev_sorted_max _ _ _ Hs F) as [H1 [H2 H3]].
      rewrite in_sort_by_year in H1. apply Z.leb_le in H2.
      exists x. split; [reflexivity|]. split; [exact H1|].
      split; [pose proof (Hne x H1); lia|].
      intros r' Hr' Hlt. apply H3; [apply in_sort_by_year; exact Hr'|].
      apply Z.leb_le; lia.
    + exfalso. apply (in_sort_by_year g) in Hr0. rewrite in_rev in Hr0.
      pose proof (find_none _ _ F r0 Hr0) as Hn. apply Z.leb_gt in Hn. lia.
  - intros Hgt Hg. unfold lookup_row, pick_row.
    destruct (find (fun r => year r =? y) (sort_by_year g)) as [x|] eqn:E.
    { apply find_some in E as [Ex Ey]. rewrite in_sort_by_year in Ex.
      apply Z.eqb_eq in Ey. specialize (Hgt x Ex). lia. }
    destruct (find (fun r => year r <=? y) (rev (sort_by_year g))) as [x|] eqn:F.
    { apply find_some in F as [Fx Fy]. rewrite <- in_rev in Fx.
      rewrite in_sort_by_year in Fx. apply Z.leb_le in Fy.
      specialize (Hgt x Fx). lia. }
    assert (Hsg : sort_by_year g <> []) by (rewrite sort_by_year_nil; exact Hg).
    destruct (last_opt_nonempty _ Hsg) as [x Hx].
    destruct (last_opt_sorted_max _ _ Hs Hx) as [H1 H2].
    exists x. rewrite Hx. split; [reflexivity|].
    split; [apply in_sort_by_year; exact H1|].
    intros r' Hr'. apply H2, in_sort_by_year, Hr'.
  - split.
    + intro Hn. destruct g as [|a g]; [reflexivity|].
      destruct (lookup_row_some (a :: g) y) as [r Hr]; [discriminate|].
      congruence.
    + intros ->. reflexivity.
Qed.

Lemma lookup_policy_witness :
  (exists r, lookup_row deu_series 2016 = Some r /\ year r < 2016)
  /\ (exists r, lookup_row deu_series 2014 = Some r /\ In r deu_series)
  /\ lookup_row deu_series 2020 = find (fun r => year r =? 2020) deu_series.
Proof.
  split; [|split].
  - destruct (proj1 (proj2 (lookup_policy deu_series 2016))) as [r [H1 [_ [H2 _]]]].
    + intros r [<-|[<-|[<-|[]]]]; simpl; lia.
    + exists r2015; split; [left; reflexivity | simpl; lia].
    + exists r; split; assumption.
  - destruct (proj1 (proj2 (proj2 (lookup_policy deu_series 2014))))
      as [r [H1 [H2 _]]].
    + intros r [<-|[<-|[<-|[]]]]; simpl; lia.
    + discriminate.
    + exists r; split; assumption.
  - apply (proj1 (lookup_policy deu_series 2020)).
    exists r2020; split; [right; right; left; reflexivity | reflexivity].
Defined.

(** ** C3: the example series {2015, 2017, 2020} *)

(** C3 (counterexample). For the years {2015, 2017, 2020} a query for 2014,
    before all data, does not return the 2015 row: the last fallback is
    [rows[rows.length - 1]], the 2020 row. *)
Lemma lookup_2014_not_2015 : lookup_row deu_series 2014 <> Some r2015.
Proof. vm_compute. discriminate. Qed.

Lemma insert_asc_perm : forall r s, Permutation (insert_asc r s) (r :: s).
Proof.
  intros r s; induction s as [|x s IH]; simpl; [reflexivity|].
  destruct (year r <=? year x); [reflexivity|].
  rewrite IH. apply perm_swap.
Qed.

Lemma sort_by_year_perm : forall l, Permutation (sort_by_year l) l.
Proof.
  induction l as [|a l IH]; simpl; [reflexivity|].
  rewrite insert_asc_perm. apply perm_skip, IH.
Qed.

(** Sorting three rows of distinct years 2015, 2017, 2020, given in any
    order, yields them in ascending order. *)
Lemma sort_three_years : forall (a b c : row) g,
  year a = 2015 -> year b = 2017 -> year c = 2020 ->
  Permutation g [a; b; c] -> sort_by_year g = [a; b; c].
Proof.
  intros a b c g Ha Hb Hc Hp.
  pose proof (Permutation_trans (sort_by_year_perm g) Hp) as Hl.
  pose proof (Permutation_length Hl) as Hlen.
  pose proof (sort_by_year_sorted g) as Hs.
  destruct (sort_by_year g) as [|x [|y [|z [|w l]]]]; try discriminate Hlen.
  apply StronglySorted_inv in Hs as [Hs Hx]. apply StronglySorted_inv in Hs as [_ Hy].
  inversion Hx as [|? ? Hxy Hx']; subst. inversion Hx' as [|? ? Hxz _]; subst.
  inversion Hy as [|? ? Hyz _]; subst. unfold year_le in *.
  assert (Ia : In a [x; y; z]) by (apply (Permutation_in _ (Permutation_sym Hl)); simpl; tauto).
  assert (Ib : In b [x; y; z]) by (apply (Permutation_in _ (Permutation_sym Hl)); simpl; tauto).
  assert (Ic : In c [x; y; z]) by (apply (Permutation_in _ (Permutation_sym Hl)); simpl; tauto).
  destruct Ia as [?|[?|[?|[]]]]; destruct Ib as [?|[?|[?|[]]]];
    destruct Ic as [?|[?|[?|[]]]]; subst; try reflexivity; lia.
Qed.

(** C3 (amended). For a country whose series has one row of each of the
    years 2015, 2017 and 2020, in any input order: 2016 gives the 2015
    row, 2014 gives the 2020 row (the last row of the ascending series),
    2020 gives the 2020 row, 2025 gives the 2020 row. *)
Theorem lookup_example_years : forall (a b c : row) g,
  year a = 2015 -> year b = 2017 -> year c = 2020 ->
  Permutation g [a; b; c] ->
  lookup_row g 2016 = Some a
  /\ lookup_row g 2014 = Some c
  /\ lookup_row g 2020 = Some c
  /\ lookup_row g 2025 = Some c.
Proof.
  intros a b c g Ha Hb Hc Hp. unfold lookup_row.
  rewrite (sort_three_years a b c g Ha Hb Hc Hp).
  unfold pick_row; simpl; rewrite Ha, Hb, Hc; simpl.
  repeat split.
Qed.

Lemma lookup_example_years_witness :
  lookup_row [r2020; r2015; r2017] 2016 = Some r2015
  /\ lookup_row [r2020; r2015; r2017] 2014 = Some r2020
  /\ lookup_row [r2020; r2015; r2017] 2020 = Some r2020
  /\ lookup_row [r2020; r2015; r2017] 2025 = Some r2020.
Proof.
  apply (lookup_example_years r2015 r2017 r2020); try reflexivity.
  apply (Permutation_trans (perm_swap r2015 r2020 [r2017])).
  apply perm_skip, perm_swap.
Defined.

(** ** C10: the panel never meets an empty group *)

(** C10. A code that is a key of [byISO = d3.group(filtered, d => d.iso3)]
    maps to a non-empty group, so the lookup chain of line 119 always
    yields a row. *)
Theorem byISO_group_lookup_defined : forall (rs : list row) k g y,
  group_get k (group_by rs) = Some g ->
  g <> [] /\ exists r, lookup_row g y = Some r.
Proof.
  intros rs k g y H.
  pose proof (group_get_nonempty _ _ _ (group_by_nonempty rs) H) as Hg.
  split; [exact Hg | apply lookup_row_some, Hg].
Qed.

Lemma byISO_group_lookup_defined_witness :
  group_get (Some (js "DEU")) (group_by deu_series) = Some deu_series
  /\ (deu_series <> [] /\ exists r, lookup_row deu_series 2018 = Some r).
Proof.
  split; [vm_compute; reflexivity|].
  apply (byISO_group_lookup_defined deu_series (Some (js "DEU"))).
  vm_compute; reflexivity.
Defined.

(** ** [d3.max] and [d3.mean] *)

(** The defined values of a list of nullable numbers. *)
Fixpoint non_null (vs : list (option Q)) : list Q :=
  match vs with
  | [] => []
  | Some x :: vs' => x :: non_null vs'
  | None :: vs' => non_null vs'
  end.

Definition max_step (acc v : option Q) : option Q :=
  match v with
  | None => acc
  | Some x =>
      match acc with
      | None => Some x
      | Some m => if Qlt_le_dec m x then Some x else Some m
      end
  end.

Lemma d3_max_fold_some : forall vs acc m,
  fold_left max_step vs acc = Some m ->
  (acc = Some m \/ In m (non_null vs))
  /\ (forall a, acc = Some a -> (a <= m)%Q)
  /\ (forall v, In v (non_null vs) -> (v <= m)%Q).
Proof.
  induction vs as [|[x|] vs IH]; intros acc m H; simpl in H |- *.
  - subst acc. split; [left; reflexivity|]. split; [|intros _ []].
    intros a Ha; injection Ha as ->; apply Qle_refl.
  - destruct (IH _ _ H) as [H1 [H2 H3]].
    destruct acc as [a|].
    + destruct (Qlt_le_dec a x) as [Hax|Hax].
      * split; [destruct H1 as [H1|H1]; [injection H1 as ->; right; left; reflexivity | right; right; exact H1]|].
        split.
        -- intros a' Ha'; injection Ha' as <-. apply Qlt_le_weak, (Qlt_le_trans _ x); [exact Hax | apply H2; reflexivity].
        -- intros v [<-|Hv]; [apply H2; reflexivity | apply H3, Hv].
      * split; [destruct H1 as [H1|H1]; [left; exact H1 | right; right; exact H1]|].
        split.
        -- intros a' Ha'; injection Ha' as <-. apply H2; reflexivity.
        -- intros v [<-|Hv]; [apply (Qle_trans _ a); [exact Hax | apply H2; reflexivity] | apply H3, Hv].
    + split; [destruct H1 as [H1|H1]; [injection H1 as ->; right; left; reflexivity | right; right; exact H1]|].
      split; [intros a Ha; discriminate|].
      intros v [<-|Hv]; [apply H2; reflexivity | apply H3, Hv].
  - exact (IH _ _ H).
Qed.

Lemma d3_max_fold_none : forall vs acc,
  fold_left max_step vs acc = None -> acc = None /\ non_null vs = [].
Proof.
  induction vs as [|[x|] vs IH]; intros acc H; simpl in H |- *.
  - split; [exact H | reflexivity].
  - destruct (IH _ H) as [H1 _]. destruct acc as [a|];
      [destruct (Qlt_le_dec a x)|]; discriminate.
  - exact (IH _ H).
Qed.

Lemma d3_max_spec : forall vs,
  (forall m, d3_max vs = Some m ->
     In m (non_null vs) /\ forall v, In v (non_null vs) -> (v <= m)%Q)
  /\ (d3_max vs = None -> non_null vs = []).
Proof.
  intro vs. unfold d3_max. fold max_step. split.
  - intros m H. destruct (d3_max_fold_some _ _ _ H) as [[H1|H1] [_ H3]];
      [discriminate | split; assumption].
  - intro H. apply (d3_max_fold_none _ _ H).
Qed.

Lemma non_null_map_some : forall (f : row -> Q) rs,
  non_null (map (fun r => Some (f r)) rs) = map f rs.
Proof. induction rs; simpl; f_equal; assumption. Qed.

Lemma in_non_null_factor : forall k rs v,
  In v (non_null (map (get_factor k) rs)) <->
  exists r, In r rs /\ get_factor k r = Some v.
Proof.
  intros k rs v; induction rs as [|r rs IH]; simpl; [firstorder|].
  destruct (get_factor k r) as [x|] eqn:E; simpl; rewrite IH; split.
  - intros [<-|[r' [H1 H2]]]; [exists r; auto | exists r'; auto].
  - intros [r' [[<-|H1] H2]]; [left; congruence | right; exists r'; auto].
  - intros [r' [H1 H2]]; exists r'; auto.
  - intros [r' [[<-|H1] H2]]; [congruence | exists r'; auto].
Qed.

(** The sum and count kept by [d3.mean]. *)
Definition mean_step (acc : Q * nat) (v : option Q) : Q * nat :=
  match v with
  | None => acc
  | Some x => (fst acc + x, (snd acc + 1)%nat)%Q
  end.

Lemma d3_mean_fold : forall vs s c,
  fold_left mean_step vs (s, c)
  = (fold_left Qplus (non_null vs) s, (c + List.length (non_null vs))%nat).
Proof.
  induction vs as [|[x|] vs IH]; intros s c; simpl.
  - rewrite Nat.add_0_r; reflexivity.
  - rewrite IH. f_equal. lia.
  - apply IH.
Qed.

(** The mean of a list, as the spec defines a period average. *)
Definition mean (xs : list Q) : option Q :=
  match xs with
  | [] => None
  | _ => Some (fold_left Qplus xs 0 / inject_Z (Z.of_nat (List.length xs)))%Q
  end.

Lemma d3_mean_mean : forall vs, d3_mean vs = mean (non_null vs).
Proof.
  intro vs. unfold d3_mean. fold mean_step. rewrite d3_mean_fold.
  destruct (non_null vs) as [|x xs]; reflexivity.
Qed.

(** ** C4: factor maxima *)

(** The claim's reading of [factorMax]: the maximum of the non-null values,
    1 when there is none. *)
Definition factor_max_ignoring_null (rs : list row) (k : factor_key) : Q :=
  match d3_max (map (get_factor k) rs) with
  | None => 1%Q
  | Some m => m
  end.

Lemma in_or_zero_values : forall k rs z,
  In z (map (fun r => or_zero (get_factor k r)) rs) ->
  In z (non_null (map (get_factor k) rs)) \/ z = 0%Q.
Proof.
  intros k rs z Hz. apply in_map_iff in Hz as [r [<- Hr]].
  destruct (get_factor k r) as [x|] eqn:E; simpl; [left|right; reflexivity].
  apply in_non_null_factor. exists r; auto.
Qed.

Lemma values_in_or_zero : forall k rs v,
  In v (non_null (map (get_factor k) rs)) ->
  In v (map (fun r => or_zero (get_factor k r)) rs).
Proof.
  intros k rs v Hv. apply in_non_null_factor in Hv as [r [Hr Hg]].
  apply in_map_iff. exists r. rewrite Hg. auto.
Qed.

Definition neg_row : row :=
  mkRow None (Some (js "DEU")) 2015 1 None (Some (-1 # 2)) None None None None None.
Definition null_row : row :=
  mkRow None (Some (js "DEU")) 2016 1 None None None None None None None.

(** C4 (counterexample). With GDP values [-0.5; null] the maximum of the
    non-null values is -0.5, but [factorMax] is 1: the null counts as 0
    and the resulting maximum 0 is replaced by 1. *)
Lemma factor_max_null_counts_as_zero :
  ~ (factor_max [neg_row; null_row] Gdp
     == factor_max_ignoring_null [neg_row; null_row] Gdp)%Q.
Proof. vm_compute. intro H; discriminate H. Qed.

(** C4 (amended). For every factor key: when some non-null value is
    positive, [factorMax] is the maximum of the non-null values; when every
    value is null (or no row is retained) it is 1; and when some value is
    null and no non-null value is positive it is 1 (nulls count as 0, a
    maximum of 0 becomes 1). *)
Theorem factor_max_spec : forall (rs : list row) (k : factor_key),
  ((exists v, In v (non_null (map (get_factor k) rs)) /\ (0 < v)%Q) ->
     In (factor_max rs k) (non_null (map (get_factor k) rs))
     /\ forall v, In v (non_null (map (get_factor k) rs)) ->
                  (v <= factor_max rs k)%Q)
  /\ (non_null (map (get_factor k) rs) = [] -> factor_max rs k = 1%Q)
  /\ ((exists r, In r rs /\ get_factor k r = None) ->
      (forall v, In v (non_null (map (get_factor k) rs)) -> (v <= 0)%Q) ->
      factor_max rs k = 1%Q).
Proof.
  intros rs k.
  pose proof (d3_max_spec (map (fun r => Some (or_zero (get_factor k r))) rs))
    as [Hsome Hnone].
  rewrite non_null_map_some in Hsome, Hnone.
  unfold factor_max.
  split; [|split].
  - intros [v [Hv Hpos]].
    destruct (d3_max _) as [m|] eqn:E.
    + destruct (Hsome m eq_refl) as [Hm Hmax].
      pose proof (Hmax v (values_in_or_zero _ _ _ Hv)) as Hvm.
      assert (Hm0 : (0 < m)%Q) by (apply (Qlt_le_trans _ v); assumption).
      destruct (Qeq_bool m 0) eqn:Q0.
      { apply Qeq_bool_eq in Q0. rewrite Q0 in Hm0. discriminate Hm0. }
      destruct (in_or_zero_values _ _ _ Hm) as [Hin| ->];
        [|discriminate Hm0].
      split; [exact Hin|]. intros w Hw. apply Hmax, values_in_or_zero, Hw.
    + specialize (Hnone eq_refl). apply values_in_or_zero in Hv.
      rewrite Hnone in Hv. destruct Hv.
  - intros Hvals. destruct (d3_max _) as [m|] eqn:E; [|reflexivity].
    destruct (Hsome m eq_refl) as [Hm _].
    destruct (in_or_zero_values _ _ _ Hm) as [Hin| ->];
      [rewrite Hvals in Hin; destruct Hin | reflexivity].
  - intros [r0 [Hr0 Hg0]] Hle.
    assert (H0 : In 0%Q (map (fun r => or_zero (get_factor k r)) rs)).
    { apply in_map_iff. exists r0. rewrite Hg0. auto. }
    destruct (d3_max _) as [m|] eqn:E.
    + destruct (Hsome m eq_refl) as [Hm Hmax].
      assert (Hm0 : (m == 0)%Q).
      { apply Qle_antisym; [|apply Hmax, H0].
        destruct (in_or_zero_values _ _ _ Hm) as [Hin| ->];
          [apply Hle, Hin | apply Qle_refl]. }
      apply Qeq_bool_iff in Hm0. rewrite Hm0. reflexivity.
    + rewrite (Hnone eq_refl) in H0. destruct H0.
Qed.

Definition pos_row : row :=
  mkRow None (Some (js "DEU")) 2017 1 None (Some (3 # 2)) None None None None None.

Lemma factor_max_spec_witness :
  In (factor_max [pos_row; null_row] Gdp)
     (non_null (map (get_factor Gdp) [pos_row; null_row]))
  /\ factor_max [null_row] Gdp = 1%Q
  /\ factor_max [neg_row; null_row] Gdp = 1%Q.
Proof.
  split; [|split].
  - apply (proj1 (factor_max_spec [pos_row; null_row] Gdp)).
    exists (3 # 2)%Q. split; [vm_compute; left; reflexivity | reflexivity].
  - apply (proj1 (proj2 (factor_max_spec [null_row] Gdp))).
    vm_compute; reflexivity.
  - apply (proj2 (proj2 (factor_max_spec [neg_row; null_row] Gdp))).
    + exists null_row. split; [right; left; reflexivity | reflexivity].
    + intros v Hv. vm_compute in Hv. destruct Hv as [<-|[]].
      vm_compute. discriminate.
Defined.

(** ** C6: pre/post Covid averages *)

Definition in_period (p : period) (y : Z) : bool :=
  match p with
  | PreCovid => (2015 <=? y) && (y <=? 2019)
  | PostCovid => 2020 <=? y
  end.

(** The spec's [periodAverage]: mean of the non-null ladder scores of the
    rows in the range. *)
Definition periodAverage (p : period) (rows : list row) : option Q :=
  mean (non_null (map ladder (filter (fun r => in_period p (year r)) rows))).

(** [preAvg] / [postAvg] of [drawCovidComparison]. *)
Definition covid_avg (p : period) (rows : list row) : option Q :=
  match p with
  | PreCovid => period_avg (pre_years rows)
  | PostCovid => period_avg (post_years rows)
  end.

Lemma period_avg_mean : forall xs,
  period_avg xs = mean (non_null (map ladder xs)).
Proof.
  intros [|x xs]; [reflexivity|]. unfold period_avg. apply d3_mean_mean.
Qed.

Lemma mean_none : forall xs, mean xs = None <-> xs = [].
Proof. intros [|x xs]; simpl; split; congruence. Qed.

Lemma non_null_ladder_nil : forall xs,
  non_null (map ladder xs) = [] <-> forall r, In r xs -> ladder r = None.
Proof.
  induction xs as [|x xs IH]; simpl; [split; [intros _ r []|reflexivity]|].
  destruct (ladder x) as [l|] eqn:E; simpl.
  - split; [discriminate|]. intro H. rewrite (H x (or_introl eq_refl)) in E.
    discriminate.
  - rewrite IH. split; [intros H r [<-|Hr]; auto | intros H r Hr; auto].
Qed.

(** C6. Each period average is the mean of the non-null ladder scores in its
    range ([2015, 2019] and [2020, +oo)), and is none exactly when no row of
    the range has a non-null score; both none gives the explicit no-data
    view, and otherwise the chart has a bar for exactly the averages that
    are defined, with their values (a none average gets no bar, not 0). *)
Theorem covid_comparison_spec : forall rows : list row,
  (forall p, covid_avg p rows = periodAverage p rows)
  /\ (forall p, covid_avg p rows = None <->
        forall r, In r rows -> in_period p (year r) = true -> ladder r = None)
  /\ (drawCovidComparison rows = CovidNoData <->
        covid_avg PreCovid rows = None /\ covid_avg PostCovid rows = None)
  /\ (forall bars, drawCovidComparison rows = CovidBars bars ->
        forall p v, In (p, v) bars <-> covid_avg p rows = Some v).
Proof.
  intro rows.
  assert (Havg : forall p, covid_avg p rows = periodAverage p rows).
  { intros []; unfold covid_avg, periodAverage; rewrite period_avg_mean;
      reflexivity. }
  split; [exact Havg|]. split; [|split].
  - intro p. rewrite Havg. unfold periodAverage.
    rewrite mean_none, non_null_ladder_nil. split.
    + intros H r Hr Hp. apply H, filter_In; auto.
    + intros H r Hr. apply filter_In in Hr as [Hr Hp]. auto.
  - unfold drawCovidComparison.
    change (period_avg (pre_years rows)) with (covid_avg PreCovid rows).
    change (period_avg (post_years rows)) with (covid_avg PostCovid rows).
    destruct (covid_avg PreCovid rows), (covid_avg PostCovid rows);
      split; intro H; try discriminate; try (destruct H; discriminate); auto.
  - intros bars. unfold drawCovidComparison.
    change (period_avg (pre_years rows)) with (covid_avg PreCovid rows).
    change (period_avg (post_years rows)) with (covid_avg PostCovid rows).
    destruct (covid_avg PreCovid rows) as [a|] eqn:Ea,
             (covid_avg PostCovid rows) as [b|] eqn:Eb;
      intro H; try discriminate; injection H as <-; intros [] v;
      cbn -[covid_avg]; rewrite ?Ea, ?Eb; split; intro H;
      repeat match goal with
             | H : _ \/ _ |- _ => destruct H
             | H : False |- _ => destruct H
             | H : (_, _) = (_, _) |- _ => injection H as <- <- || injection H as <-
             | H : Some _ = Some _ |- _ => injection H as <-
             end;
      try discriminate; auto.
Qed.

Definition ladder_rows : list row :=
  [obs "DEU" 2015 1 (Some 1%Q); obs "DEU" 2016 1 (Some 2%Q);
   obs "DEU" 2017 1 (Some 3%Q); obs "DEU" 2018 1 (Some 4%Q);
   obs "DEU" 2019 1 (Some 5%Q)].

Lemma covid_comparison_spec_witness :
  covid_avg PreCovid ladder_rows = Some (15 # 5)%Q
  /\ covid_avg PostCovid ladder_rows = None
  /\ (forall bars, drawCovidComparison ladder_rows = CovidBars bars ->
        forall v, In (PostCovid, v) bars <-> covid_avg PostCovid ladder_rows = Some v).
Proof.
  split; [vm_compute; reflexivity|]. split.
  - apply (proj2 (proj1 (proj2 (covid_comparison_spec ladder_rows)) PostCovid)).
    intros r Hr Hp. vm_compute in Hr.
    repeat destruct Hr as [<-|Hr]; try destruct Hr; vm_compute in Hp;
      discriminate.
  - intros bars Hb v.
    exact (proj2 (proj2 (proj2 (covid_comparison_spec ladder_rows))) bars Hb PostCovid v).
Defined.

(** ** Runs of triggers and concrete loads *)

Fixpoint run (e : env) (st : state) (ts : list trigger) : js_result state :=
  match ts with
  | [] => JsOk st
  | t :: ts' =>
      match step e st t with
      | JsOk st' => run e st' ts'
      | JsTypeError => JsTypeError
      end
  end.

Definition panel_of (o : js_result state) : option (option panel) :=
  match o with JsOk st => Some (panel_view st) | JsTypeError => None end.

Definition selected_of (o : js_result state) : option (option jsstring) :=
  match o with JsOk st => Some (selectedISO st) | JsTypeError => None end.

Definition demo_dict : dict :=
  [(js "Germany", js "DEU"); (js "France", js "FRA")].

(** A raw CSV record: untrimmed name, no code yet. *)
Definition csv_row (name : string) (y rk : Z) (l : option Q) : row :=
  mkRow (Some (js name)) None y rk l None None None None None None.

Definition germany_raw := mkFeature (Some (js "Germany")) None.
Definition france_raw := mkFeature (Some (js "France")) None.
Definition germany_f := tag_feature demo_dict germany_raw.
Definition france_f := tag_feature demo_dict france_raw.

(** Germany has a row for 2015 only. *)
Definition env_2015 : env :=
  loadData demo_dict [csv_row "Germany" 2015 5 (Some 7%Q)] [germany_raw] [].

(** Germany has a row for 2020; France is on the map but has no row. *)
Definition env_no_france : env :=
  loadData demo_dict [csv_row "Germany" 2020 14 (Some 7%Q)]
    [germany_raw; france_raw] [].

(** ** Map fill lemmas *)

Definition map_get_step (k : option jsstring) (acc : option Z)
  (p : option jsstring * Z) : option Z :=
  if opt_jss_eqb k (fst p) then Some (snd p) else acc.

Lemma map_get_fold_nokey : forall k m acc,
  (forall p, In p m -> opt_jss_eqb k (fst p) = false) ->
  fold_left (map_get_step k) m acc = acc.
Proof.
  intros k m; induction m as [|p m IH]; intros acc H; simpl; [reflexivity|].
  unfold map_get_step at 2. rewrite (H p (or_introl eq_refl)).
  apply IH. intros q Hq; apply H; right; exact Hq.
Qed.

Lemma in_year_data : forall rs y p,
  In p (year_data rs y) <->
  exists r, In r rs /\ year r = y /\ p = (iso3 r, rank r).
Proof.
  intros rs y p. unfold year_data. rewrite in_map_iff. split.
  - intros [r [<- Hr]]. apply filter_In in Hr as [Hr Hy].
    apply Z.eqb_eq in Hy. exists r; auto.
  - intros [r [Hr [Hy ->]]]. exists r. split; [reflexivity|].
    apply filter_In; split; [exact Hr | apply Z.eqb_eq, Hy].
Qed.

Lemma opt_jss_eqb_false : forall a b, a <> b -> opt_jss_eqb a b = false.
Proof.
  intros a b H. destruct (opt_jss_eqb a b) eqn:E; [|reflexivity].
  apply opt_jss_eqb_eq in E. contradiction.
Qed.

Lemma showCountryPanel_guard : forall e iso disp y old,
  truthy_str iso = false \/ group_get iso (byISO e) = None ->
  showCountryPanel e iso disp y old = JsOk old.
Proof.
  intros e iso disp y old [H|H]; unfold showCountryPanel; rewrite H;
    [reflexivity|]. destruct (negb (truthy_str iso)); reflexivity.
Qed.

(** ** C1: the map fill *)

(** C1 (counterexample). Germany's only row is from 2015 (rank 5). At
    2016 the panel's lookup falls back to that row, but the map paints
    Germany with the neutral fill: [drawMap] reads only rows of the exact
    year. *)
Lemma map_fill_no_fallback :
  drawMap env_2015 2016 = [Neutral]
  /\ match group_get (Some (js "DEU")) (byISO env_2015) with
     | Some g => option_map rank (lookup_row g 2016) = Some 5
     | None => False
     end.
Proof. vm_compute. split; reflexivity. Qed.

(** C1 (amended). A year change recomputes the fill of every feature from
    the retained rows of exactly that year (a click leaves the fills as
    they are): a feature whose code has no row of that year is neutral,
    with no fallback to an earlier year; otherwise the last such row in
    row order decides, colored by its rank on the fixed scale, neutral
    when the rank is 0. *)
Theorem map_fill_exact_year :
  (forall e st y st', step e st (YearChange y) = JsOk st' ->
     map_fills st' = map (feature_fill (year_data (happinessData e) y))
                         (worldData e))
  /\ (forall e st f st', step e st (Click f) = JsOk st' ->
        map_fills st' = map_fills st)
  /\ (forall rs y f,
        (forall r, In r rs -> iso3 r = iso_a3 f -> year r <> y) ->
        feature_fill (year_data rs y) f = Neutral)
  /\ (forall rs y f pre r post,
        rs = pre ++ r :: post -> iso3 r = iso_a3 f -> year r = y ->
        (forall r', In r' post -> iso3 r' = iso_a3 f -> year r' <> y) ->
        feature_fill (year_data rs y) f
        = if rank r =? 0 then Neutral else RankColor (rank r)).
Proof.
  split; [|split; [|split]].
  - intros e st y st' H. simpl in H.
    destruct (truthy_str (selectedISO st)).
    + destruct (showCountryPanel _ _ _ _ _); [|discriminate].
      injection H as <-. reflexivity.
    + injection H as <-. reflexivity.
  - intros e st f st' H. simpl in H.
    destruct (showCountryPanel _ _ _ _ _); [|discriminate].
    injection H as <-. reflexivity.
  - intros rs y f H. unfold feature_fill, map_get. fold (map_get_step (iso_a3 f)).
    rewrite map_get_fold_nokey; [reflexivity|].
    intros p Hp. apply in_year_data in Hp as [r [Hr [Hy ->]]].
    apply opt_jss_eqb_false. simpl. intro He. apply (H r Hr); [symmetry|]; assumption.
  - intros rs y f pre r post -> Hiso Hy Hpost.
    unfold feature_fill, map_get. fold (map_get_step (iso_a3 f)).
    unfold year_data. rewrite filter_app, map_app, fold_left_app. simpl.
    replace (year r =? y) with true by (symmetry; apply Z.eqb_eq, Hy).
    simpl. unfold map_get_step at 2. simpl.
    rewrite Hiso, opt_jss_eqb_refl.
    rewrite map_get_fold_nokey; [reflexivity|].
    intros p Hp. fold (year_data post y) in Hp.
    apply in_year_data in Hp as [r' [Hr' [Hy' ->]]].
    apply opt_jss_eqb_false. simpl. intro He.
    apply (Hpost r' Hr'); [symmetry|]; assumption.
Qed.

Lemma map_fill_exact_year_witness :
  feature_fill (year_data (happinessData env_2015) 2016) germany_f = Neutral
  /\ feature_fill (year_data [r2015; r2017; r2020] 2017)
       (mkFeature None (Some (js "DEU"))) = RankColor 6
  /\ match step env_2015 (init_state env_2015 2015) (YearChange 2016) with
     | JsOk st' => map_fills st'
         = map (feature_fill (year_data (happinessData env_2015) 2016))
               (worldData env_2015)
     | JsTypeError => False
     end.
Proof.
  split; [|split].
  - apply (proj1 (proj2 (proj2 map_fill_exact_year))).
    intros r Hr _. vm_compute in Hr. destruct Hr as [<-|[]].
    vm_compute. discriminate.
  - apply (proj2 (proj2 (proj2 map_fill_exact_year))
             [r2015; r2017; r2020] 2017 (mkFeature None (Some (js "DEU")))
             [r2015] r2017 [r2020]);
      [reflexivity | reflexivity | reflexivity |].
    intros r' [<-|[]] _. vm_compute. discriminate.
  - destruct (step env_2015 (init_state env_2015 2015) (YearChange 2016))
      as [st'|] eqn:E.
    + exact (proj1 map_fill_exact_year _ _ _ _ E).
    + vm_compute in E. discriminate.
Defined.

(** ** C8: each trigger changes only its own component *)

(** C8. On the data built by [loadData], a year change completes, sets the
    slider year and keeps [selectedISO]; a click on a feature completes,
    sets [selectedISO] to that feature's code and keeps the year. *)
Theorem trigger_frame : forall d csv world ev st,
  (forall y, exists st',
     step (loadData d csv world ev) st (YearChange y) = JsOk st'
     /\ slider st' = y /\ selectedISO st' = selectedISO st)
  /\ (forall f, exists st',
        step (loadData d csv world ev) st (Click f) = JsOk st'
        /\ selectedISO st' = iso_a3 f /\ slider st' = slider st).
Proof.
  intros d csv world ev st.
  assert (Ht : forall iso disp y old, exists p,
            showCountryPanel (loadData d csv world ev) iso disp y old = JsOk p)
    by (intros; apply showCountryPanel_total, loadData_groups).
  split.
  - intro y. simpl step. destruct (truthy_str (selectedISO st)).
    + edestruct Ht as [p Hp]. rewrite Hp.
      eexists; split; [reflexivity | split; reflexivity].
    + eexists; split; [reflexivity | split; reflexivity].
  - intro f. simpl step. edestruct Ht as [p Hp]. rewrite Hp.
    eexists; split; [reflexivity | split; reflexivity].
Qed.

(** ** C9: a selected country without rows *)

(** C9 (counterexample). After clicking Germany, a click on France (on the
    map, but without any retained row) selects FRA, yet the panel is left
    exactly as it was: it still shows Germany, and no empty state. *)
Lemma stale_panel_for_country_without_rows :
  selected_of (run env_no_france (init_state env_no_france 2020)
                 [Click germany_f; Click france_f]) = Some (Some (js "FRA"))
  /\ panel_of (run env_no_france (init_state env_no_france 2020)
                 [Click germany_f; Click france_f])
     = panel_of (run env_no_france (init_state env_no_france 2020)
                   [Click germany_f])
  /\ option_map (option_map p_title)
       (panel_of (run env_no_france (init_state env_no_france 2020)
                    [Click germany_f; Click france_f]))
     = Some (Some (Some (js "Germany"))).
Proof. vm_compute. split; [reflexivity | split; reflexivity]. Qed.

(** C9 (amended). When the selected code is null or has no retained rows,
    [showCountryPanel] returns at its guard: the trigger completes (no
    crash), the map is redrawn on a year change, and the panel is left as
    it was, so it shows no empty state and keeps the content of the country
    shown before. *)
Theorem panel_guard_keeps_panel : forall e st,
  (forall f, truthy_str (iso_a3 f) = false
             \/ group_get (iso_a3 f) (byISO e) = None ->
     step e st (Click f)
     = JsOk (mkState (slider st) (iso_a3 f) (map_fills st) (panel_view st)))
  /\ (forall y, truthy_str (selectedISO st) = false
                \/ group_get (selectedISO st) (byISO e) = None ->
        step e st (YearChange y)
        = JsOk (mkState y (selectedISO st) (drawMap e y) (panel_view st))).
Proof.
  intros e st. split.
  - intros f H. simpl. rewrite showCountryPanel_guard by exact H.
    reflexivity.
  - intros y H. simpl.
    rewrite showCountryPanel_guard by exact H.
    destruct (truthy_str (selectedISO st)); reflexivity.
Qed.

Lemma panel_guard_keeps_panel_witness :
  step env_no_france (init_state env_no_france 2020) (Click france_f)
  = JsOk (mkState 2020 (iso_a3 france_f)
            (map_fills (init_state env_no_france 2020)) None)
  /\ step env_no_france (mkState 2020 (Some (js "FRA")) [] None) (YearChange 2019)
     = JsOk (mkState 2019 (Some (js "FRA")) (drawMap env_no_france 2019) None).
Proof.
  split.
  - apply (proj1 (panel_guard_keeps_panel env_no_france
                    (init_state env_no_france 2020)) france_f).
    right. vm_compute. reflexivity.
  - apply (proj2 (panel_guard_keeps_panel env_no_france
                    (mkState 2020 (Some (js "FRA")) [] None)) 2019).
    right. vm_compute. reflexivity.
Defined.

(** ** C5: the event timeline *)

Definition event_env (ev : event_log) : env :=
  loadData demo_dict [csv_row "Germany" 2020 14 (Some 7%Q)] [germany_raw] ev.

Definition history_after_click (ev : event_log) : option history_view :=
  match panel_of (run (event_env ev) (init_state (event_env ev) 2020)
                    [Click germany_f]) with
  | Some (Some p) => Some (p_history p)
  | _ => None
  end.

(** The timeline on the spec's example: events in 2010, 2015 and 2020. *)
Definition three_events : list (Z * list jsstring) :=
  [(2010, [js "a"]); (2015, [js "b"; js "c"]); (2020, [js "d"])].

Lemma history_examples :
  history [(js "DEU", three_events)] (Some (js "DEU")) 2012
  = EventList [mkEntry 2010 false [(js "a", false)]]
  /\ history [(js "DEU", three_events)] (Some (js "DEU")) 2005
  = EventList [mkEntry 2020 false [(js "d", false)];
               mkEntry 2015 false [(js "b", false); (js "c", false)];
               mkEntry 2010 false [(js "a", false)]]
  /\ history [(js "DEU", three_events)] (Some (js "DEU")) 2015
  = EventList [mkEntry 2015 true [(js "b", true); (js "c", false)];
               mkEntry 2010 false [(js "a", false)]].
Proof. vm_compute. repeat split. Qed.

(** C5 (code defect). A country present in [events.json] with no entries
    ([{"DEU": {}}]) passes the truthiness test [eventsData[iso3]] (an empty
    object is truthy): the panel renders an empty list and not the
    "Keine Ereignisse hinterlegt." state it shows for a country absent from
    the log. *)
Theorem empty_event_object_no_empty_state :
  history_after_click [(js "DEU", [])] = Some (EventList [])
  /\ history_after_click [] = Some NoEvents.
Proof. vm_compute. split; reflexivity. Qed.

(** ** C7: name resolution *)










(** * Further properties of the code *)

(** ** The ascending series *)


(** The series built by [showCountryPanel] holds exactly the rows of the
    group, in ascending order of year. *)
Theorem series_sorted_perm : forall g : list row,
  Permutation (sort_by_year g) g
  /\ StronglySorted (fun a b => year a <= year b) (sort_by_year g).
Proof.
  intro g. split; [|apply sort_by_year_sorted].
  induction g as [|a g IH]; simpl; [reflexivity|].
  rewrite insert_asc_perm, IH. reflexivity.
Qed.

(** ** [d3.group] *)

Definition merge_rows (o : option (list row)) (l : list row)
  : option (list row) :=
  match o, l with
  | None, [] => None
  | None, _ => Some l
  | Some a, _ => Some (a ++ l)
  end.

Lemma group_get_add : forall k k' r g,
  group_get k (group_add k' r g)
  = if opt_jss_eqb k k' then merge_rows (group_get k g) [r]
    else group_get k g.
Proof.
  intros k k' r g; induction g as [|[k0 rs] g IH]; simpl.
  - destruct (opt_jss_eqb k k'); reflexivity.
  - destruct (opt_jss_eqb k' k0) eqn:E1; simpl.
    + apply opt_jss_eqb_eq in E1; subst k0.
      destruct (opt_jss_eqb k k'); reflexivity.
    + rewrite IH. destruct (opt_jss_eqb k k0) eqn:E2, (opt_jss_eqb k k') eqn:E3;
        try reflexivity.
      apply opt_jss_eqb_eq in E2, E3; subst. rewrite opt_jss_eqb_refl in E1.
      discriminate.
Qed.

(** [byISO.get(k)] is the list of the rows whose code is [k], in input
    order, and is undefined when there is none. *)
Theorem group_by_get : forall (rs : list row) k,
  group_get k (group_by rs)
  = match filter (fun r => opt_jss_eqb k (iso3 r)) rs with
    | [] => None
    | l => Some l
    end.
Proof.
  intros rs k. unfold group_by.
  assert (H : forall g, group_get k (fold_left (fun g r => group_add (iso3 r) r g) rs g)
                        = merge_rows (group_get k g)
                            (filter (fun r => opt_jss_eqb k (iso3 r)) rs)).
  { induction rs as [|r rs IH]; intro g; simpl.
    - destruct (group_get k g); simpl; rewrite ?app_nil_r; reflexivity.
    - rewrite IH, group_get_add.
      destruct (opt_jss_eqb k (iso3 r)); [|reflexivity].
      destruct (group_get k g) as [a|]; simpl;
        [rewrite <- app_assoc; reflexivity|].
      reflexivity. }
  rewrite H. simpl. destruct (filter _ rs); reflexivity.
Qed.

(** ** [trim] and the name normalization *)

Lemma trim_start_split : forall s, exists p,
  s = p ++ trim_start s /\ Forall (fun c => is_js_space c = true) p
  /\ forall c, hd_error (trim_start s) = Some c -> is_js_space c = false.
Proof.
  induction s as [|c s IH]; simpl.
  - exists []. split; [reflexivity|]. split; [constructor | discriminate].
  - destruct (is_js_space c) eqn:E.
    + destruct IH as [p [H1 [H2 H3]]]. exists (c :: p).
      split; [simpl; f_equal; exact H1|]. split; [constructor; assumption | exact H3].
    + exists []. split; [reflexivity|]. split; [constructor|].
      intros c' H; injection H as <-; exact E.
Qed.

Lemma trim_start_id : forall s,
  (forall c, hd_error s = Some c -> is_js_space c = false) -> trim_start s = s.
Proof.
  intros [|c s] H; simpl; [reflexivity|].
  rewrite (H c eq_refl). reflexivity.
Qed.

(** [String.prototype.trim] removes only leading and trailing whitespace,
    leaves no whitespace at either end, and trimming twice changes
    nothing. *)
Theorem trim_spec : forall s : jsstring,
  (exists p q, s = p ++ trim s ++ q
     /\ Forall (fun c => is_js_space c = true) p
     /\ Forall (fun c => is_js_space c = true) q)
  /\ (forall c, hd_error (trim s) = Some c -> is_js_space c = false)
  /\ (forall c, hd_error (rev (trim s)) = Some c -> is_js_space c = false)
  /\ trim (trim s) = trim s.
Proof.
  intro s. unfold trim.
  destruct (trim_start_split s) as [p [Hp1 [Hp2 Hp3]]].
  set (u := trim_start s) in *.
  destruct (trim_start_split (rev u)) as [q [Hq1 [Hq2 Hq3]]].
  set (v := trim_start (rev u)) in *.
  assert (Hu : u = rev v ++ rev q).
  { rewrite <- rev_app_distr, <- Hq1, rev_involutive. reflexivity. }
  assert (Hhead : forall c, hd_error (rev v) = Some c -> is_js_space c = false).
  { intros c Hc. apply Hp3. rewrite Hu. destruct (rev v); [discriminate|exact Hc]. }
  assert (Hlast : forall c, hd_error (rev (rev v)) = Some c -> is_js_space c = false).
  { rewrite rev_involutive. exact Hq3. }
  split; [|split; [exact Hhead | split; [exact Hlast|]]].
  - exists p, (rev q). split; [rewrite Hp1, Hu; reflexivity|].
    split; [exact Hp2|]. apply Forall_rev, Hq2.
  - rewrite (trim_start_id (rev v) Hhead).
    rewrite (trim_start_id (rev (rev v)) Hlast), rev_involutive.
    reflexivity.
Qed.

(** The normalized name has no period and no U+2019, and normalizing
    twice changes nothing. *)
Theorem normalize_name_spec : forall s : jsstring,
  ~ In 46 (normalize_name s) /\ ~ In 8217 (normalize_name s)
  /\ normalize_name (normalize_name s) = normalize_name s.
Proof.
  intro s. unfold normalize_name, canon_apostrophes, strip_periods.
  assert (Hno : forall c, In c (map (fun c => if (c =? 8217) || (c =? 39) then 39 else c)
                                  (filter (fun c => negb (c =? 46)) s)) ->
                c <> 46 /\ c <> 8217).
  { intros c Hc. apply in_map_iff in Hc as [x [<- Hx]].
    apply filter_In in Hx as [_ Hx].
    destruct (x =? 8217) eqn:E1; simpl; [lia|].
    destruct (x =? 39) eqn:E2; simpl; [lia|].
    apply negb_true_iff, Z.eqb_neq in Hx. apply Z.eqb_neq in E1. lia. }
  split; [intro H; exact (proj1 (Hno 46 H) eq_refl)|].
  split; [intro H; exact (proj2 (Hno 8217 H) eq_refl)|].
  set (t := map _ (filter _ s)) in *.
  assert (Hf : filter (fun c => negb (c =? 46)) t = t).
  { apply forallb_filter_id, forallb_forall. intros c Hc.
    apply negb_true_iff, Z.eqb_neq. exact (proj1 (Hno c Hc)). }
  rewrite Hf. clear Hf.
  assert (Hgen : forall l, (forall c, In c l -> c <> 8217) ->
            map (fun c => if (c =? 8217) || (c =? 39) then 39 else c) l = l).
  { induction l as [|c l IH]; intro H; simpl; [reflexivity|].
    rewrite IH by (intros; apply H; right; assumption).
    destruct (c =? 8217) eqn:E1.
    + apply Z.eqb_eq in E1. exfalso. exact (H c (or_introl eq_refl) E1).
    + destruct (c =? 39) eqn:E2; simpl; [apply Z.eqb_eq in E2; subst c|];
        reflexivity. }
  apply Hgen. intros c Hc. exact (proj2 (Hno c Hc)).
Qed.

(** ** [drawMap] only colors from rows of the drawn year *)

Lemma map_get_fold_some : forall k m acc v,
  fold_left (map_get_step k) m acc = Some v ->
  acc = Some v \/ In (k, v) m.
Proof.
  intros k m; induction m as [|[k' x] m IH]; intros acc v H; simpl in H.
  - left; exact H.
  - apply IH in H as [H|H]; [|right; right; exact H].
    unfold map_get_step in H. simpl in H.
    destruct (opt_jss_eqb k k') eqn:E; [|left; exact H].
    apply opt_jss_eqb_eq in E. subst k'. injection H as ->.
    right; left; reflexivity.
Qed.

(** [drawMap] gives one fill per feature, and a feature is colored with a
    rank only if a retained row of its code and of the drawn year has that
    (non-zero) rank. *)
Theorem drawMap_color_sound : forall (e : env) y,
  List.length (drawMap e y) = List.length (worldData e)
  /\ forall i f k,
       nth_error (worldData e) i = Some f ->
       nth_error (drawMap e y) i = Some (RankColor k) ->
       k <> 0 /\ exists r, In r (happinessData e) /\ iso3 r = iso_a3 f
                           /\ year r = y /\ rank r = k.
Proof.
  intros e y. split; [apply length_map|].
  intros i f k Hf Hd. unfold drawMap in Hd.
  rewrite nth_error_map, Hf in Hd. simpl in Hd. injection Hd as Hd.
  unfold feature_fill in Hd.
  destruct (map_get (iso_a3 f) _) as [rk|] eqn:E; [|discriminate].
  destruct (rk =? 0) eqn:Z0; [discriminate|]. injection Hd as <-.
  split; [apply Z.eqb_neq, Z0|].
  unfold map_get in E. fold (map_get_step (iso_a3 f)) in E.
  apply map_get_fold_some in E as [E|E]; [discriminate|].
  apply in_year_data in E as [r [Hr [Hy Hp]]]. injection Hp as H1 H2.
  exists r. auto.
Qed.

Lemma drawMap_color_sound_witness :
  exists r, In r (happinessData env_no_france) /\ iso3 r = iso_a3 germany_f
            /\ year r = 2020 /\ rank r = 14.
Proof.
  apply (proj2 (drawMap_color_sound env_no_france 2020) 0%nat germany_f 14);
    vm_compute; reflexivity.
Defined.

(** ** Sparkline year labels *)

(** [i % k === 0] filter with the element's index. *)
Fixpoint filter_idx {A} (p : nat -> bool) (i : nat) (l : list A) : list A :=
  match l with
  | [] => []
  | x :: l' => if p i then x :: filter_idx p (S i) l' else filter_idx p (S i) l'
  end.

(** Lines 134-135:
    [years.length > 6
       ? years.filter((_,i) => i % Math.ceil(years.length/6) === 0)
       : years]
    ([Math.ceil(n/6)] is [(n + 5) / 6] on naturals). *)
Definition sparkline_ticks (rows : list row) : list Z :=
  let years := map year rows in
  let n := List.length years in
  if Nat.ltb 6 n
  then filter_idx (fun i => Nat.eqb (i mod ((n + 5) / 6)) 0) 0 years
  else years.

Lemma filter_idx_length : forall {A} p (l : list A) s,
  List.length (filter_idx p s l) = List.length (filter p (seq s (List.length l))).
Proof.
  intros A p l; induction l as [|x l IH]; intro s; simpl; [reflexivity|].
  destruct (p s); simpl; rewrite IH; reflexivity.
Qed.

Lemma filter_idx_incl : forall {A} p (l : list A) s, incl (filter_idx p s l) l.
Proof.
  intros A p l; induction l as [|x l IH]; intros s z Hz; simpl in Hz; [destruct Hz|].
  destruct (p s); [destruct Hz as [<-|Hz]; [left; reflexivity|]|];
    right; exact (IH _ z Hz).
Qed.

(** The sparkline never gets more than six year labels; they are years of
    the series and the first year is always labelled. *)
Theorem sparkline_ticks_spec : forall rows : list row,
  (List.length (sparkline_ticks rows) <= 6)%nat
  /\ incl (sparkline_ticks rows) (map year rows)
  /\ hd_error (sparkline_ticks rows) = hd_error (map year rows).
Proof.
  intro rows. unfold sparkline_ticks.
  set (years := map year rows). set (n := List.length years).
  destruct (Nat.ltb 6 n) eqn:Hn; [|split; [apply Nat.ltb_ge, Hn | split; [apply incl_refl | reflexivity]]].
  apply Nat.ltb_lt in Hn. set (k := ((n + 5) / 6)%nat).
  assert (Hk : (1 <= k /\ n <= 6 * k)%nat).
  { pose proof (Nat.div_mod (n + 5) 6 ltac:(discriminate)) as Hd.
    pose proof (Nat.mod_upper_bound (n + 5) 6 ltac:(discriminate)) as Hm.
    unfold k. lia. }
  split; [|split].
  - rewrite filter_idx_length. fold n.
    change 6%nat with (List.length (map (fun j => j * k) (seq 0 6)))%nat.
    apply NoDup_incl_length.
    + apply NoDup_filter, seq_NoDup.
    + intros i Hi. apply filter_In in Hi as [Hi Hm].
      apply in_seq in Hi. apply Nat.eqb_eq in Hm.
      apply in_map_iff. exists (i / k)%nat.
      pose proof (Nat.div_mod i k ltac:(lia)) as Hd.
      split; [rewrite Hm in Hd; lia|]. apply in_seq.
      assert (i / k < 6)%nat by (apply Nat.Div0.div_lt_upper_bound; lia). lia.
  - apply filter_idx_incl.
  - unfold years. destruct rows as [|r rs]; [reflexivity|]. simpl.
    rewrite Nat.Div0.mod_0_l. reflexivity.
Qed.

(** ** Factor bars *)

(** [(d.value / (d.max || 1)) * 100], the bar width in percent. *)
Definition bar_width (v mx : Q) : Q :=
  (v / (if Qeq_bool mx 0 then 1 else mx) * 100)%Q.

(** On loaded data the factor maximum is never 0, and the bar of a
    retained row with a non-negative value has a width between 0% and
    100%. *)
Theorem factor_bar_width_bounded : forall d csv world ev r,
  In r (happinessData (loadData d csv world ev)) ->
  forall k v mx, In (k, v, mx) (factor_values (loadData d csv world ev) r) ->
  ~ (mx == 0)%Q /\ ((0 <= v)%Q -> (0 <= bar_width v mx <= 100)%Q).
Proof.
  intros d csv world ev r Hr k v mx Hin.
  unfold factor_values in Hin. apply in_map_iff in Hin as [k' [Hk _]].
  injection Hk as Hk1 Hk2 Hk3. subst k' v mx. simpl in Hr |- *.
  set (rs := filter_rows _ _) in *.
  pose proof (d3_max_spec (map (fun r => Some (or_zero (get_factor k r))) rs))
    as [Hsome Hnone].
  rewrite non_null_map_some in Hsome, Hnone.
  assert (Hv : In (or_zero (get_factor k r)) (map (fun r => or_zero (get_factor k r)) rs))
    by (apply (in_map (fun r => or_zero (get_factor k r))); exact Hr).
  unfold factor_max, bar_width.
  destruct (d3_max _) as [m|] eqn:E;
    [|rewrite (Hnone eq_refl) in Hv; destruct Hv].
  destruct (Hsome m eq_refl) as [_ Hmax]. specialize (Hmax _ Hv).
  set (x := or_zero (get_factor k r)) in *.
  destruct (Qeq_bool m 0) eqn:M0.
  - apply Qeq_bool_eq in M0. simpl.
    split; [discriminate|]. intro H0.
    assert (Hx : (x == 0)%Q) by (apply Qle_antisym; [rewrite <- M0; exact Hmax | exact H0]).
    rewrite Hx. split; vm_compute; discriminate.
  - assert (Hm : ~ (m == 0)%Q) by (intro H; apply Qeq_bool_iff in H; congruence).
    split; [exact Hm|]. intro H0. rewrite M0.
    assert (Hpos : (0 < m)%Q).
    { destruct (Qle_lt_or_eq 0 m (Qle_trans _ _ _ H0 Hmax)) as [H|H];
        [exact H | exfalso; apply Hm; rewrite H; reflexivity]. }
    split.
    + apply (Qle_trans _ (0 * 100)); [discriminate|].
      apply Qmult_le_compat_r; [|discriminate].
      apply Qle_shift_div_l; [exact Hpos|].
      rewrite Qmult_0_l. exact H0.
    + apply (Qle_trans _ (1 * 100)); [|discriminate].
      apply Qmult_le_compat_r; [|discriminate].
      apply Qle_shift_div_r; [exact Hpos|].
      rewrite Qmult_1_l. exact Hmax.
Qed.

Lemma factor_bar_width_bounded_witness :
  ~ (factor_max (happinessData env_no_france) Gdp == 0)%Q
  /\ ((0 <= 0)%Q ->
      (0 <= bar_width 0 (factor_max (happinessData env_no_france) Gdp) <= 100)%Q).
Proof.
  refine (factor_bar_width_bounded demo_dict
           [csv_row "Germany" 2020 14 (Some 7%Q)] [germany_raw; france_raw] []
           (hd null_row (happinessData env_no_france)) _ Gdp 0%Q
           (factor_max (happinessData env_no_france) Gdp) _).
  - vm_compute. left. reflexivity.
  - vm_compute. left. reflexivity.
Defined.

(** ** The event timeline *)

Lemma insert_desc_perm : forall e s, Permutation (insert_desc e s) (e :: s).
Proof.
  intros e s; induction s as [|x s IH]; simpl; [reflexivity|].
  destruct (fst x <=? fst e); [reflexivity|].
  rewrite IH. apply perm_swap.
Qed.

Lemma sort_desc_perm : forall l, Permutation (sort_desc l) l.
Proof.
  induction l as [|e l IH]; simpl; [reflexivity|].
  rewrite insert_desc_perm. apply perm_skip, IH.
Qed.

Lemma insert_desc_sorted : forall e s,
  StronglySorted (fun a b => fst b <= fst a) s ->
  StronglySorted (fun a b => fst b <= fst a) (insert_desc e s).
Proof.
  intros e s; induction s as [|x s IH]; intro Hs; simpl.
  - repeat constructor.
  - apply StronglySorted_inv in Hs as [Hs Hx].
    destruct (fst x <=? fst e) eqn:E.
    + apply Z.leb_le in E. constructor; [constructor; assumption|].
      constructor; [exact E|].
      eapply Forall_impl; [|exact Hx]. intros a Ha; simpl in *; lia.
    + apply Z.leb_gt in E. constructor; [apply IH, Hs|].
      apply (Permutation_Forall (Permutation_sym (insert_desc_perm e s))).
      constructor; [simpl; lia | exact Hx].
Qed.

Lemma sort_desc_sorted : forall l,
  StronglySorted (fun a b => fst b <= fst a) (sort_desc l).
Proof.
  induction l as [|e l IH]; simpl; [constructor|]. apply insert_desc_sorted, IH.
Qed.

Lemma StronglySorted_filter : forall {A} (R : A -> A -> Prop) f l,
  StronglySorted R l -> StronglySorted R (filter f l).
Proof.
  intros A R f l; induction l as [|a l IH]; intro H; simpl; [constructor|].
  apply StronglySorted_inv in H as [H Ha].
  destruct (f a); [constructor; [apply IH, H|]|apply IH, H].
  apply Forall_forall. intros x Hx. apply filter_In in Hx as [Hx _].
  rewrite Forall_forall in Ha. apply Ha, Hx.
Qed.

Lemma StronglySorted_map : forall {A B} (R : B -> B -> Prop) (f : A -> B) l,
  StronglySorted (fun a b => R (f a) (f b)) l -> StronglySorted R (map f l).
Proof.
  intros A B R f l; induction l as [|a l IH]; intro H; simpl; [constructor|].
  apply StronglySorted_inv in H as [H Ha]. constructor; [apply IH, H|].
  apply Forall_map. exact Ha.
Qed.

Lemma Permutation_filter_compat : forall {A} (f : A -> bool) l l',
  Permutation l l' -> Permutation (filter f l) (filter f l').
Proof.
  intros A f l l' H; induction H; simpl.
  - constructor.
  - destruct (f x); [apply perm_skip|]; assumption.
  - destruct (f x), (f y); try apply perm_swap; try apply perm_skip; reflexivity.
  - etransitivity; eassumption.
Qed.

Lemma existsb_filter_nil : forall {A} (f : A -> bool) l,
  existsb f l = false <-> filter f l = [].
Proof.
  intros A f l; induction l as [|a l IH]; simpl; [tauto|].
  destruct (f a); simpl; [split; discriminate | exact IH].
Qed.

Lemma flag_texts_fst : forall act i ts, map fst (flag_texts act i ts) = ts.
Proof.
  intros act i ts; revert i; induction ts as [|t ts IH]; intro i; simpl;
    [reflexivity | rewrite IH; reflexivity].
Qed.

Lemma flag_texts_length : forall act i ts,
  List.length (flag_texts act i ts) = List.length ts.
Proof.
  intros act i ts; revert i; induction ts as [|t ts IH]; intro i; simpl;
    [reflexivity | rewrite IH; reflexivity].
Qed.

Lemma flag_texts_snd_tail : forall act i ts,
  map snd (flag_texts act (S i) ts) = repeat false (List.length ts).
Proof.
  intros act i ts; revert i; induction ts as [|t ts IH]; intro i; simpl;
    [reflexivity|].
  rewrite andb_false_r, (IH (S i)). reflexivity.
Qed.

(** The timeline of [history]: the events of the country, newest first;
    restricted to the years up to the slider year when there is one such
    year, all of them otherwise; an entry is active exactly when its year
    is the slider year, and only the first text of an active entry is a
    headline. *)
Theorem history_spec : forall ev iso y,
  match history ev iso y with
  | NoEvents => events_get ev iso = None
  | EventList l => exists es, events_get ev iso = Some es
      /\ StronglySorted (fun a b => ev_year b <= ev_year a) l
      /\ Permutation (map (fun x => (ev_year x, map fst (ev_texts x))) l)
           (if existsb (fun e => fst e <=? y) es
            then filter (fun e => fst e <=? y) es else es)
      /\ Forall (fun x => ev_active x = (ev_year x =? y)
           /\ map snd (ev_texts x)
              = match ev_texts x with
                | [] => []
                | _ :: t => ev_active x :: repeat false (List.length t)
                end) l
  end.
Proof.
  intros ev iso y. unfold history.
  destruct (events_get ev iso) as [es|]; [|reflexivity].
  set (f := fun e : Z * list jsstring => fst e <=? y).
  set (lst := match filter f (sort_desc es) with [] => sort_desc es | _ => filter f (sort_desc es) end).
  assert (Hsel : Permutation lst (if existsb f es then filter f es else es)
                 /\ StronglySorted (fun a b => fst b <= fst a) lst).
  { pose proof (Permutation_filter_compat f _ _ (sort_desc_perm es)) as Hp.
    unfold lst. destruct (filter f (sort_desc es)) as [|a l] eqn:F.
    - apply Permutation_nil in Hp. apply existsb_filter_nil in Hp. rewrite Hp.
      split; [apply sort_desc_perm | apply sort_desc_sorted].
    - destruct (existsb f es) eqn:Ex.
      + split; [exact Hp|]. rewrite <- F. apply StronglySorted_filter, sort_desc_sorted.
      + apply existsb_filter_nil in Ex. rewrite Ex in Hp.
        apply Permutation_sym, Permutation_nil in Hp. discriminate. }
  destruct Hsel as [Hperm Hsort].
  exists es. split; [reflexivity|]. split; [|split].
  - apply StronglySorted_map. exact Hsort.
  - rewrite map_map. unfold render_entry; simpl.
    erewrite map_ext; [rewrite map_id; exact Hperm|].
    intros [yr ts]; simpl. rewrite flag_texts_fst. reflexivity.
  - apply Forall_map, Forall_forall. intros [yr ts] _. unfold render_entry; simpl.
    split; [reflexivity|]. destruct ts as [|t ts]; simpl; [reflexivity|].
    rewrite ?andb_true_r, flag_texts_snd_tail, flag_texts_length. reflexivity.
Qed.

(** ** A year change with a selected country *)

(** With a selected country that has rows, a year change redraws the map
    for the new year and rebuilds the panel at that year: its row is the
    lookup of the country's group at the new year, its series the sorted
    group, its title the name of the country's feature (the code itself
    when no feature has it), and its timeline the one of the new year. *)
Theorem year_change_refresh : forall e st y g,
  truthy_str (selectedISO st) = true ->
  group_get (selectedISO st) (byISO e) = Some g -> g <> [] ->
  exists r p, lookup_row g y = Some r
    /\ step e st (YearChange y)
       = JsOk (mkState y (selectedISO st) (drawMap e y) (Some p))
    /\ p_row p = r /\ p_series p = sort_by_year g
    /\ p_title p = match find_feature (worldData e) (selectedISO st) with
                   | Some f => fname f
                   | None => selectedISO st
                   end
    /\ p_history p = history (eventsData e) (selectedISO st) y.
Proof.
  intros e st y g Ht Hg Hne.
  destruct (lookup_row_some g y Hne) as [r Hr].
  simpl step. rewrite Ht. unfold showCountryPanel. rewrite Ht. simpl negb.
  rewrite Hg. unfold lookup_row in Hr. rewrite Hr.
  exists r. eexists. split; [exact Hr|].
  split; [reflexivity|]. repeat split.
Qed.

Definition deu_selected : state :=
  mkState 2020 (Some (js "DEU")) (drawMap env_no_france 2020) None.

Lemma year_change_refresh_witness :
  exists r p, lookup_row (happinessData env_no_france) 2019 = Some r
    /\ step env_no_france deu_selected (YearChange 2019)
       = JsOk (mkState 2019 (selectedISO deu_selected) (drawMap env_no_france 2019)
                 (Some p))
    /\ p_row p = r /\ p_series p = sort_by_year (happinessData env_no_france)
    /\ p_title p = match find_feature (worldData env_no_france)
                          (selectedISO deu_selected) with
                   | Some f => fname f
                   | None => selectedISO deu_selected
                   end
    /\ p_history p = history (eventsData env_no_france) (selectedISO deu_selected) 2019.
Proof.
  apply (year_change_refresh env_no_france deu_selected 2019
           (happinessData env_no_france)).
  - vm_compute. reflexivity.
  - vm_compute. reflexivity.
  - vm_compute. discriminate.
Defined.
